(** * para_2025_president: the Bedrock text generator of [main.py]

    A shallow embedding of the class [BedrockTextGenerator] (constructor,
    [generate_text], [interactive_chat]) and of the entry point of
    [main.py], together with the properties of prompt composition,
    conversation history and the console loop.

    Python values are modelled as follows.
    - [str] is a sequence of Unicode code points, [list N]; literals of the
      source are written [u "..."], the code points of the UTF-8 text
      between the quotes.
    - [int] is [Z], [float] is the binary64 type [PrimFloat.float].
    - [os.environ] is a finite map from [str] to [str].
    - the instance attribute [chat_history] is a [list str]; [append] adds
      at the end.
    - exceptions are values of [exn]; code that may raise after having
      changed the state runs in the monad [M], in which the state survives
      a raise (as the attributes of [self] do in Python).
    - boto3, the remote endpoint, [json.loads] and the textual form of
      floats and exceptions are the fields of the class [Platform]. *)

From Stdlib Require Import ZArith NArith List String Ascii.
From Stdlib Require Import Floats.PrimFloat.
From Stdlib Require DecimalString.
From stdpp Require Import gmap.
Import ListNotations.

Local Open Scope N_scope.
Local Open Scope list_scope.

(** ** Python strings *)

Definition str := list N.

Definition cont (b : N) : N := N.land b 0x3F.

(** Code points of a UTF-8 byte sequence (source literals are well formed). *)
Fixpoint utf8_decode (bs : list N) : str :=
  match bs with
  | [] => []
  | b :: r =>
      if b <? 0x80 then b :: utf8_decode r
      else if b <? 0xE0 then
        match r with
        | b1 :: r1 =>
            N.lor (N.shiftl (N.land b 0x1F) 6) (cont b1) :: utf8_decode r1
        | _ => []
        end
      else if b <? 0xF0 then
        match r with
        | b1 :: b2 :: r2 =>
            N.lor (N.shiftl (N.land b 0x0F) 12)
              (N.lor (N.shiftl (cont b1) 6) (cont b2)) :: utf8_decode r2
        | _ => []
        end
      else
        match r with
        | b1 :: b2 :: b3 :: r3 =>
            N.lor (N.shiftl (N.land b 0x07) 18)
              (N.lor (N.shiftl (cont b1) 12)
                 (N.lor (N.shiftl (cont b2) 6) (cont b3))) :: utf8_decode r3
        | _ => []
        end
  end.

Fixpoint bytes_of_string (s : string) : list N :=
  match s with
  | EmptyString => []
  | String c r => N_of_ascii c :: bytes_of_string r
  end.

(** A literal of the source. *)
Definition u (s : string) : str := utf8_decode (bytes_of_string s).

(** The newline character, written [\n] in the source. *)
Definition nl : str := [10].

(** [str.isspace] on one character: the Unicode white space of CPython. *)
Definition isspace (c : N) : bool :=
  ((0x09 <=? c) && (c <=? 0x0D)) || ((0x1C <=? c) && (c <=? 0x20))
  || (c =? 0x85) || (c =? 0xA0) || (c =? 0x1680)
  || ((0x2000 <=? c) && (c <=? 0x200A))
  || (c =? 0x2028) || (c =? 0x2029) || (c =? 0x202F) || (c =? 0x205F)
  || (c =? 0x3000).

Fixpoint lstrip (s : str) : str :=
  match s with
  | c :: r => if isspace c then lstrip r else s
  | [] => []
  end.

Definition rstrip (s : str) : str := rev (lstrip (rev s)).

(** [s.strip()] with no argument. *)
Definition strip (s : str) : str := rstrip (lstrip s).

(** [needle in hay] for strings. *)
Fixpoint starts_with (p s : str) : bool :=
  match p, s with
  | [], _ => true
  | a :: p', b :: s' => (a =? b) && starts_with p' s'
  | _ :: _, [] => false
  end.

Fixpoint contains (hay needle : str) : bool :=
  starts_with needle hay ||
  match hay with
  | [] => false
  | _ :: r => contains r needle
  end.

(** [str(n)] for an [int]. *)
Definition int_str (n : Z) : str :=
  bytes_of_string (DecimalString.NilZero.string_of_int (Z.to_int n)).

(** ** JSON values

    What [json.loads] returns and [json.dumps] takes: [None], [bool],
    [int], [float], [str], [list] and [dict] (keys are strings; the items
    of a [dict] are listed once per key). *)

#[warnings="-register-all"] Inductive json : Type :=
| JNull
| JBool (b : bool)
| JInt (n : Z)
| JFloat (f : float)
| JStr (s : str)
| JArr (items : list json)
| JObj (items : list (str * json)).

Fixpoint dict_get (items : list (str * json)) (key : str) : option json :=
  match items with
  | [] => None
  | (k, v) :: r => if decide (k = key) then Some v else dict_get r key
  end.

(** ** Exceptions *)

Inductive exn : Type :=
| EnvironmentError (msg : str)
| KeyError
| IndexError
| TypeError
| AttributeError
| EOFError
| ExternalError (descr : str).

(** [v[key]] with a string key. *)
Definition getitem_key (v : json) (key : str) : exn + json :=
  match v with
  | JObj items =>
      match dict_get items key with
      | Some x => inr x
      | None => inl KeyError
      end
  | _ => inl TypeError
  end.

(** [v[0]]. *)
Definition getitem_0 (v : json) : exn + json :=
  match v with
  | JArr (x :: _) => inr x
  | JArr [] => inl IndexError
  | JStr (c :: _) => inr (JStr [c])
  | JStr [] => inl IndexError
  | JObj _ => inl KeyError
  | _ => inl TypeError
  end.

(** [v.strip()]: only a [str] has the method. *)
Definition strip_method (v : json) : exn + str :=
  match v with
  | JStr s => inr (strip s)
  | _ => inl AttributeError
  end.

(** ** The outside world *)

Definition bytes := list Byte.byte.

(** The object [boto3.client] returns. *)
Record Client : Type := {
  service_name : str;
  region_name : str
}.

(** Calls that leave the process. *)
Inductive event : Type :=
| ClientCreated (service region : str)
| ModelInvoked (modelId body : str).

(** [response['body']]: [read()] raises or gives the bytes. *)
Inductive StreamingBody : Type :=
| Body (read : str + bytes).

Record World : Type := {
  environ : gmap str str;   (* os.environ *)
  stdout : list str;        (* what was written to the console, in order *)
  trace : list event        (* calls to boto3 and to the endpoint, in order *)
}.

(** What the program does not define itself. An external call that raises
    is [inl descr], [descr] describing the exception. *)
Class Platform : Type := {
  (* boto3.client(service_name=.., region_name=..): [Some descr] when it raises *)
  client_failure : str -> str -> option str;
  (* client.invoke_model(modelId=.., body=..), after the calls made so far *)
  invoke_model : list event -> Client -> str -> str -> str + StreamingBody;
  (* json.loads *)
  json_loads : bytes -> str + json;
  (* the text json.dumps writes for a float *)
  float_repr : float -> str;
  (* format() of a float, a list or a dict *)
  format_other : json -> str;
  (* str(e) of an exception *)
  exn_str : exn -> str
}.

(** ** The instance *)

Record BedrockTextGenerator : Type := {
  bedrock_runtime : Client;
  model_id : str;
  max_tokens : Z;
  temperature : float;
  chat_history : list str
}.

Record State : Type := {
  generator : BedrockTextGenerator;
  world : World
}.

Definition with_history (h : list str) (g : BedrockTextGenerator) : BedrockTextGenerator :=
  {| bedrock_runtime := bedrock_runtime g; model_id := model_id g;
     max_tokens := max_tokens g; temperature := temperature g;
     chat_history := h |}.

Definition with_max_tokens (m : Z) (g : BedrockTextGenerator) : BedrockTextGenerator :=
  {| bedrock_runtime := bedrock_runtime g; model_id := model_id g;
     max_tokens := m; temperature := temperature g;
     chat_history := chat_history g |}.

Definition with_stdout (o : list str) (w : World) : World :=
  {| environ := environ w; stdout := o; trace := trace w |}.

Definition with_trace (t : list event) (w : World) : World :=
  {| environ := environ w; stdout := stdout w; trace := t |}.

Definition with_environ (e : gmap str str) (w : World) : World :=
  {| environ := e; stdout := stdout w; trace := trace w |}.

(** ** A state monad in which a raise keeps the state *)

Definition M (A : Type) : Type := State -> (exn + A) * State.

Definition ret {A} (a : A) : M A := fun st => (inr a, st).

Definition bind {A B} (c : M A) (k : A -> M B) : M B :=
  fun st =>
    match c st with
    | (inr a, st1) => k a st1
    | (inl e, st1) => (inl e, st1)
    end.

(** [try: c except Exception as e: h e] *)
Definition try_except {A} (c : M A) (h : exn -> M A) : M A :=
  fun st =>
    match c st with
    | (inr a, st1) => (inr a, st1)
    | (inl e, st1) => h e st1
    end.

Definition lift {A} (r : exn + A) : M A := fun st => (r, st).

Definition external {A} (r : str + A) : exn + A :=
  match r with
  | inl descr => inl (ExternalError descr)
  | inr a => inr a
  end.

Declare Scope py_scope.
Delimit Scope py_scope with py.
Notation "x <- c ;; k" := (bind c (fun x => k))
  (at level 100, c at next level, right associativity) : py_scope.
Notation "c ;; k" := (bind c (fun _ => k))
  (at level 100, right associativity) : py_scope.

Definition get_self : M BedrockTextGenerator := fun st => (inr (generator st), st).

(** [self.chat_history.append(item)] *)
Definition append_history (item : str) : M unit :=
  fun st =>
    (inr tt,
     {| generator := with_history (chat_history (generator st) ++ [item]) (generator st);
        world := world st |}).

(** Writing [s] to the console. *)
Definition write (s : str) : M unit :=
  fun st =>
    (inr tt,
     {| generator := generator st;
        world := with_stdout (stdout (world st) ++ [s]) (world st) |}).

(** [print(s)] *)
Definition print (s : str) : M unit := write (s ++ nl).

(** ** The program *)

Section Program.

Context `{P : Platform}.

Local Open Scope py_scope.

(** *** [json.dumps] (defaults: [ensure_ascii=True], separators [", "] and [": "]) *)

Definition hex_digit (d : N) : N := if d <? 10 then 48 + d else 87 + d.

(** [\uXXXX], four lower-case hexadecimal digits. *)
Definition u_escape (c : N) : str :=
  [92; 117;
   hex_digit (N.shiftr c 12 mod 16); hex_digit (N.shiftr c 8 mod 16);
   hex_digit (N.shiftr c 4 mod 16); hex_digit (c mod 16)].

Definition escape_char (c : N) : str :=
  if c =? 34 then [92; 34]
  else if c =? 92 then [92; 92]
  else if c =? 10 then [92; 110]
  else if c =? 13 then [92; 114]
  else if c =? 9 then [92; 116]
  else if c =? 8 then [92; 98]
  else if c =? 12 then [92; 102]
  else if (32 <=? c) && (c <=? 126) then [c]
  else if c <? 0x10000 then u_escape c
  else
    let n := c - 0x10000 in
    u_escape (N.lor 0xD800 (N.land (N.shiftr n 10) 0x3FF))
    ++ u_escape (N.lor 0xDC00 (N.land n 0x3FF)).

Definition dumps_str (s : str) : str := [34] ++ flat_map escape_char s ++ [34].

Fixpoint join (sep : str) (parts : list str) : str :=
  match parts with
  | [] => []
  | [x] => x
  | x :: r => x ++ sep ++ join sep r
  end.

Fixpoint json_dumps (v : json) : str :=
  match v with
  | JNull => u "null"
  | JBool true => u "true"
  | JBool false => u "false"
  | JInt n => int_str n
  | JFloat f => float_repr f
  | JStr s => dumps_str s
  | JArr items => u "[" ++ join (u ", ") (map json_dumps items) ++ u "]"
  | JObj items =>
      u "{"
      ++ join (u ", ")
           (map (fun kv : str * json => let (k, x) := kv in dumps_str k ++ u ": " ++ json_dumps x)
              items)
      ++ u "}"
  end.

(** *** [generate_text] *)

(** Lines 55-66: the prompt built from the system prompt, the stored
    history and the new input. *)
Definition compose_prompt (system_prompt : option str) (history : list str)
    (prompt : str) : str :=
  let full_prompt : str := [] in
  let full_prompt :=
    match system_prompt with
    | Some (c :: s) => full_prompt ++ ((c :: s) ++ nl)
    | Some [] | None => full_prompt
    end in
  let full_prompt :=
    match history with
    | _ :: _ =>
        fold_left (fun acc history_item => acc ++ (history_item ++ nl)) history
          (full_prompt ++ (u "대화 히스토리:" ++ nl))
    | [] => full_prompt
    end in
  full_prompt ++ (u "Human: " ++ prompt ++ nl ++ u "Assistant:").

(** Lines 69-77: the payload. *)
Definition request_body (full_prompt : str) (temperature : float) : json :=
  JObj [(u "messages",
         JArr [JObj [(u "role", JStr (u "user")); (u "content", JStr full_prompt)]]);
        (u "temperature", JFloat temperature)].

Definition call_invoke_model (c : Client) (modelId body : str) : M StreamingBody :=
  fun st =>
    (external (invoke_model (trace (world st)) c modelId body),
     {| generator := generator st;
        world := with_trace (trace (world st) ++ [ModelInvoked modelId body]) (world st) |}).

Definition read_body (b : StreamingBody) : exn + bytes :=
  match b with
  | Body r => external r
  end.

(** Lines 81-87: invoke the endpoint, read the body, take the reply out. *)
Definition request_reply (body : json) : M json :=
  self <- get_self ;;
  response <- call_invoke_model (bedrock_runtime self) (model_id self) (json_dumps body) ;;
  raw <- lift (read_body response) ;;
  response_body <- lift (external (json_loads raw)) ;;
  choices <- lift (getitem_key response_body (u "choices")) ;;
  choice <- lift (getitem_0 choices) ;;
  message <- lift (getitem_key choice (u "message")) ;;
  lift (getitem_key message (u "content")).

(** [f"{v}"] *)
Definition format_value (v : json) : str :=
  match v with
  | JStr s => s
  | JNull => u "None"
  | JBool true => u "True"
  | JBool false => u "False"
  | JInt n => int_str n
  | _ => format_other v
  end.

(** Lines 80-92: the body of the [try]. *)
Definition try_block (prompt : str) (body : json) : M str :=
  generated_text <- request_reply body ;;
  append_history (u "Human: " ++ prompt) ;;
  append_history (u "Assistant: " ++ format_value generated_text) ;;
  lift (strip_method generated_text).

Definition generate_text (prompt : str) (system_prompt : option str) : M str :=
  self <- get_self ;;
  let full_prompt := compose_prompt system_prompt (chat_history self) prompt in
  let body := request_body full_prompt (temperature self) in
  try_except (try_block prompt body)
    (fun e => print (u "텍스트 생성 중 오류 발생: " ++ exn_str e) ;; ret []).

(** *** [__init__] *)

Definition credential_keys : list str :=
  [u "AWS_ACCESS_KEY_ID"; u "AWS_SECRET_ACCESS_KEY"].

Definition BedrockTextGenerator_init (model_id region_name : str) (max_tokens : Z)
    (temperature : float) (w : World) : (exn + BedrockTextGenerator) * World :=
  if negb (forallb (fun key => bool_decide (is_Some (environ w !! key))) credential_keys)
  then (inl (EnvironmentError (u "AWS 자격증명 환경변수를 설정해주세요.")), w)
  else
    let w1 := with_trace (trace w ++ [ClientCreated (u "bedrock-runtime") region_name]) w in
    match client_failure (u "bedrock-runtime") region_name with
    | Some descr => (inl (ExternalError descr), w1)
    | None =>
        (inr {| bedrock_runtime :=
                  {| service_name := u "bedrock-runtime"; region_name := region_name |};
                model_id := model_id;
                max_tokens := max_tokens;
                temperature := temperature;
                chat_history := [] |},
         w1)
    end.

(** The defaults of the constructor. *)
Definition default_model_id : str := u "ai21.jamba-1-5-mini-v1:0".
Definition default_region_name : str := u "us-east-1".
Definition default_max_tokens : Z := 200.
(** 0.7, the nearest binary64 value. *)
Definition default_temperature : float := 0x1.6666666666666p-1%float.

(** *** [interactive_chat] *)

(** Lines 114-123: one turn of the loop. *)
Definition chat_turn (system_prompt : option str) (user_input : str) : M unit :=
  try_except
    (response <- generate_text user_input system_prompt ;;
     print (u "AI: " ++ response))
    (fun e => print (u "오류 발생: " ++ exn_str e)).

(** Lines 107-123. [stdin] is the lines the operator will still type;
    [input] raises [EOFError] when there is none. The lines left unread
    are returned with the outcome. *)
Fixpoint chat_loop (system_prompt : option str) (stdin : list str) (st : State)
    : (exn + unit) * list str * State :=
  let st := snd (write (u "사용자: ") st) in
  match stdin with
  | [] => (inl EOFError, [], st)
  | user_input :: rest =>
      if decide (user_input = u "종료") then
        (inr tt, rest, snd (print (u "텍스트 생성기를 종료합니다.") st))
      else
        match chat_turn system_prompt user_input st with
        | (inr _, st1) => chat_loop system_prompt rest st1
        | (inl e, st1) => (inl e, rest, st1)
        end
  end.

Definition interactive_chat (system_prompt : option str) (stdin : list str) (st : State)
    : (exn + unit) * list str * State :=
  chat_loop system_prompt stdin
    (snd (print (u "AI 텍스트 생성기 시작. '종료'를 입력하면 종료합니다.") st)).

(** *** The entry point (lines 126-135) *)

Definition main (stdin : list str) (w : World) : (exn + unit) * list str * World :=
  let w :=
    with_environ
      (<[u "AWS_DEFAULT_REGION" := u "us-east-1"]>
         (<[u "AWS_SECRET_ACCESS_KEY" := []]>
            (<[u "AWS_ACCESS_KEY_ID" := []]> (environ w)))) w in
  match BedrockTextGenerator_init default_model_id default_region_name
          default_max_tokens default_temperature w with
  | (inl e, w1) => (inl e, stdin, w1)
  | (inr text_generator, w1) =>
      let '(r, rest, st) :=
        interactive_chat (Some (u "너는 친절하고 도움이 되는 AI 어시스턴트야.")) stdin
          {| generator := text_generator; world := w1 |} in
      (r, rest, world st)
  end.

End Program.

(** ** Notions used to state the properties *)

(** No white space at either end. *)
Definition trimmed (s : str) : Prop :=
  (forall c r, s = c :: r -> isspace c = false)
  /\ (forall c r, s = r ++ [c] -> isspace c = false).

(** The line of the system prompt in the composed prompt, if any. *)
Definition system_line (system_prompt : option str) : str :=
  match system_prompt with
  | Some (c :: s) => (c :: s) ++ nl
  | Some [] | None => []
  end.

(** The stored turns, one per line. *)
Definition history_lines (history : list str) : str :=
  concat (map (fun turn => turn ++ nl) history).

(** The console after the banner, after the input prompt and after the
    farewell of [interactive_chat]. *)
Definition greeted (st : State) : State :=
  snd (print (u "AI 텍스트 생성기 시작. '종료'를 입력하면 종료합니다.") st).

Definition asked (st : State) : State := snd (write (u "사용자: ") st).

Definition dismissed (st : State) : State :=
  snd (print (u "텍스트 생성기를 종료합니다.") st).

(** The state after the lines [inputs] were each asked for and handed to
    [generate_text], in order. *)
Definition after_turns `{P : Platform} (system_prompt : option str)
    (inputs : list str) (st : State) : State :=
  fold_left (fun st user_input => snd (chat_turn system_prompt user_input (asked st)))
    inputs st.

(** The request [generate_text] sends for [prompt] from state [st]. *)
Definition request_sent `{P : Platform} (prompt : str) (system_prompt : option str)
    (st : State) : event :=
  ModelInvoked (model_id (generator st))
    (json_dumps
       (request_body
          (compose_prompt system_prompt (chat_history (generator st)) prompt)
          (temperature (generator st)))).

(** A JSON text, written with ['] where the text has the double quote and
    with [|] where it has the two characters of a newline escape. *)
Definition json_text (s : string) : str :=
  flat_map (fun c => if c =? 39 then [34] else if c =? 124 then [92; 110] else [c]) (u s).

(** *** Concrete platforms and states for the examples *)

(** The response [{'choices': [{'message': {'content': text}}]}]. *)
Definition reply_json (text : json) : json :=
  JObj [(u "choices", JArr [JObj [(u "message", JObj [(u "content", text)])]])].

(** An endpoint that answers every request with [content]. *)
Definition answering (content : json) : Platform :=
  {| client_failure := fun _ _ => None;
     invoke_model := fun _ _ _ _ => inr (Body (inr []));
     json_loads := fun _ => inr (reply_json content);
     float_repr := fun _ => u "0.7";
     format_other := fun _ => u "[]";
     exn_str := fun _ => u "error" |}.

(** An endpoint that cannot be reached. *)
Definition unreachable : Platform :=
  {| client_failure := fun _ _ => None;
     invoke_model := fun _ _ _ _ => inl (u "EndpointConnectionError");
     json_loads := fun _ => inl (u "JSONDecodeError");
     float_repr := fun _ => u "0.7";
     format_other := fun _ => u "[]";
     exn_str := fun _ => u "error" |}.

Definition empty_world : World := {| environ := ∅; stdout := []; trace := [] |}.

(** The instance the constructor builds with its defaults. *)
Definition fresh_generator : BedrockTextGenerator :=
  {| bedrock_runtime :=
       {| service_name := u "bedrock-runtime"; region_name := default_region_name |};
     model_id := default_model_id;
     max_tokens := default_max_tokens;
     temperature := default_temperature;
     chat_history := [] |}.

Definition fresh_state : State := {| generator := fresh_generator; world := empty_world |}.

(** *** Notions for the further properties *)

(** The line [generate_text] prints when it catches [e]. *)
Definition diagnostic `{P : Platform} (e : exn) : str :=
  (u "텍스트 생성 중 오류 발생: " ++ exn_str e) ++ nl.

(** The two entries one turn adds to [chat_history]. *)
Definition turn_entries (prompt reply : str) : list str :=
  [u "Human: " ++ prompt; u "Assistant: " ++ reply].

(** A history made of whole turns: a Human entry, then its Assistant entry. *)
Definition paired (history : list str) : Prop :=
  exists turns : list (str * str),
    history = flat_map (fun t => turn_entries (fst t) (snd t)) turns.

(** Printable ASCII, from the space to the tilde. *)
Definition printable (c : N) : bool := (32 <=? c) && (c <=? 126).

(** An endpoint whose response body parses to [response]. *)
Definition responding (response : json) : Platform :=
  {| client_failure := fun _ _ => None;
     invoke_model := fun _ _ _ _ => inr (Body (inr []));
     json_loads := fun _ => inr response;
     float_repr := fun _ => u "0.7";
     format_other := fun _ => u "[]";
     exn_str := fun _ => u "error" |}.

(** The content of the response the endpoint gives to the request that
    [generate_text] makes for [prompt] from the state [st]: the body is
    read and parsed, it is a dict whose [choices] is a list with a dict
    first, whose [message] is a dict, and the content is its [content]. *)
Definition endpoint_content `{P : Platform} (st : State) (prompt : str)
    (system_prompt : option str) : option json :=
  match invoke_model (trace (world st)) (bedrock_runtime (generator st))
          (model_id (generator st))
          (json_dumps
             (request_body
                (compose_prompt system_prompt (chat_history (generator st)) prompt)
                (temperature (generator st)))) with
  | inr (Body (inr raw)) =>
      match json_loads raw with
      | inr (JObj top) =>
          match dict_get top (u "choices") with
          | Some (JArr (JObj choice :: _)) =>
              match dict_get choice (u "message") with
              | Some (JObj message) => dict_get message (u "content")
              | _ => None
              end
          | _ => None
          end
      | _ => None
      end
  | _ => None
  end.

(** An endpoint that answers every request with a response of that shape
    (other keys and further choices allowed) whose content is a string. *)
Definition always_answers (P : Platform) : Prop :=
  forall calls client modelId body,
  exists raw top choice others message text,
    invoke_model calls client modelId body = inr (Body (inr raw))
    /\ json_loads raw = inr (JObj top)
    /\ dict_get top (u "choices") = Some (JArr (JObj choice :: others))
    /\ dict_get choice (u "message") = Some (JObj message)
    /\ dict_get message (u "content") = Some (JStr text).

(** An endpoint every call to which raises. *)
Definition never_answers (P : Platform) : Prop :=
  forall calls client modelId body,
  exists descr, invoke_model calls client modelId body = inl descr.

(** * Properties *)

(** ** The literals and the string functions on examples *)

Example u_history_label :
  u "대화 히스토리:" = [0xB300; 0xD654; 0x20; 0xD788; 0xC2A4; 0xD1A0; 0xB9AC; 0x3A].
Proof. reflexivity. Qed.

Example u_sentinel : u "종료" = [0xC885; 0xB8CC].
Proof. reflexivity. Qed.

Example int_str_200 : int_str 200 = u "200".
Proof. reflexivity. Qed.

Example strip_example : strip (u "  b" ++ nl) = u "b".
Proof. reflexivity. Qed.

Example strip_unicode_space : strip [0x3000; 0x1C; 0x62; 0x20; 0x63; 0xA0; 0x2028] = u "b c".
Proof. reflexivity. Qed.

Example dumps_escapes :
  json_dumps (P := unreachable) (JStr [0xB300; 0x7F; 1; 0x1F600; 34; 92; 47])
  = json_text "'\ub300\u007f\u0001\ud83d\ude00\'\\/'".
Proof. reflexivity. Qed.

(** ** White space *)

Lemma lstrip_split (s : str) :
  exists pre, s = pre ++ lstrip s /\ forallb isspace pre = true.
Proof.
  induction s as [|c s [pre [Hs Hpre]]]; simpl.
  - exists []. auto.
  - destruct (isspace c) eqn:Hc.
    + exists (c :: pre). simpl. rewrite Hc, Hpre. split; [congruence | reflexivity].
    + exists []. auto.
Qed.

Lemma lstrip_head (s : str) (c : N) (r : str) :
  lstrip s = c :: r -> isspace c = false.
Proof.
  induction s as [|a s IH]; simpl; [discriminate|].
  destruct (isspace a) eqn:Ha; [exact IH|].
  intros H. injection H as -> _. exact Ha.
Qed.

Lemma forallb_rev {A} (f : A -> bool) (l : list A) :
  forallb f l = true -> forallb f (rev l) = true.
Proof.
  rewrite !forallb_forall. intros H x Hx. apply H. now apply in_rev.
Qed.

Lemma rstrip_split (s : str) :
  exists post, s = rstrip s ++ post /\ forallb isspace post = true.
Proof.
  destruct (lstrip_split (rev s)) as [pre [Hs Hpre]].
  exists (rev pre). split; [|now apply forallb_rev].
  unfold rstrip. rewrite <- rev_app_distr, <- Hs. now rewrite rev_involutive.
Qed.

Lemma rstrip_last (s : str) (c : N) (r : str) :
  rstrip s = r ++ [c] -> isspace c = false.
Proof.
  unfold rstrip. intros H.
  apply (f_equal (@rev N)) in H. rewrite rev_involutive, rev_app_distr in H.
  simpl in H. exact (lstrip_head _ _ _ H).
Qed.

Lemma strip_split (s : str) :
  exists pre post,
    s = pre ++ strip s ++ post
    /\ forallb isspace pre = true /\ forallb isspace post = true.
Proof.
  destruct (lstrip_split s) as [pre [Hs Hpre]].
  destruct (rstrip_split (lstrip s)) as [post [Ht Hpost]].
  exists pre, post. unfold strip. rewrite <- Ht. auto.
Qed.

Lemma strip_trimmed (s : str) : trimmed (strip s).
Proof.
  split; intros c r H.
  - destruct (rstrip_split (lstrip s)) as [post [Ht _]].
    unfold strip in H. rewrite H in Ht. simpl in Ht.
    exact (lstrip_head _ _ _ Ht).
  - exact (rstrip_last _ _ _ H).
Qed.

(** ** [generate_text] *)

Section GenerateText.

Context `{P : Platform}.

Local Open Scope py_scope.

(** Case analysis on every scrutinee of the goal. *)
Ltac cases :=
  repeat match goal with
    | |- context [match ?x with _ => _ end] => destruct x eqn:?; simpl
    end.

(** Lines 81-87 invoke the endpoint once and leave the instance alone. *)
Lemma request_reply_effect (body : json) (st : State) :
  snd (request_reply body st)
  = {| generator := generator st;
       world :=
         with_trace
           (trace (world st)
            ++ [ModelInvoked (model_id (generator st)) (json_dumps body)])
           (world st) |}.
Proof.
  unfold request_reply, bind, get_self, call_invoke_model, lift. simpl.
  cases; reflexivity.
Qed.

(** The [try] block ends without an exception exactly when the extracted
    reply is a string; both turns are stored by then. *)
Lemma try_block_returns (prompt : str) (body : json) (st st1 : State) (r : str) :
  try_block prompt body st = (inr r, st1) ->
  exists text,
    fst (request_reply body st) = inr (JStr text)
    /\ r = strip text
    /\ generator st1
       = with_history
           (chat_history (generator st)
            ++ [u "Human: " ++ prompt; u "Assistant: " ++ text])
           (generator st).
Proof.
  unfold try_block, bind. intros H.
  pose proof (request_reply_effect body st) as Heff.
  destruct (request_reply body st) as [[e|v] st0]; simpl in *; [discriminate|].
  unfold append_history, lift in H. simpl in H.
  destruct v; simpl in H; try discriminate.
  injection H as <- <-. exists s. subst st0. simpl.
  rewrite <- app_assoc. auto.
Qed.

(** A call never raises: every exception of the [try] block is caught. *)
Lemma generate_text_returns (prompt : str) (system_prompt : option str) (st : State) :
  exists r, fst (generate_text prompt system_prompt st) = inr r.
Proof.
  unfold generate_text, bind, get_self, try_except. simpl.
  destruct (try_block _ _ st) as [[e|r] st1]; simpl; eauto.
Qed.

(** Each call sends one request, the one of [request_sent]. *)
Lemma generate_text_trace (prompt : str) (system_prompt : option str) (st : State) :
  trace (world (snd (generate_text prompt system_prompt st)))
  = trace (world st) ++ [request_sent prompt system_prompt st].
Proof.
  unfold generate_text, bind, get_self, try_except, try_block. simpl.
  set (body := request_body _ _).
  pose proof (request_reply_effect body st) as Heff.
  unfold bind.
  destruct (request_reply body st) as [[e|v] st0]; simpl in *; subst st0.
  - reflexivity.
  - unfold lift. destruct (strip_method v); reflexivity.
Qed.

(** The failures of lines 81-87. When invoking the endpoint, reading the
    response body, parsing it or one of the four subscripts raises,
    [generate_text] returns the empty string and the instance, hence
    [chat_history], is exactly what it was before the call. (A call can
    also fail later, at [strip]; see the example [non_string_reply].) *)
Theorem generate_text_failure_keeps_history (prompt : str)
    (system_prompt : option str) (st : State) (e : exn) :
  fst (request_reply
         (request_body
            (compose_prompt system_prompt (chat_history (generator st)) prompt)
            (temperature (generator st))) st) = inl e ->
  fst (generate_text prompt system_prompt st) = inr []
  /\ generator (snd (generate_text prompt system_prompt st)) = generator st
  /\ chat_history (generator (snd (generate_text prompt system_prompt st)))
     = chat_history (generator st)
  /\ length (chat_history (generator (snd (generate_text prompt system_prompt st))))
     = length (chat_history (generator st)).
Proof.
  intros Hfail.
  assert (Hgen : fst (generate_text prompt system_prompt st) = inr []
                 /\ generator (snd (generate_text prompt system_prompt st)) = generator st).
  { unfold generate_text, bind, get_self, try_except, try_block. simpl.
    set (body := request_body _ _) in *.
    pose proof (request_reply_effect body st) as Heff.
    unfold bind.
    destruct (request_reply body st) as [[e0|v] st0]; simpl in *; [|discriminate].
    subst st0. auto. }
  destruct Hgen as [Hret Hg]. rewrite Hg. auto.
Qed.

(** C5. When the [try] block of [generate_text] finishes without an
    exception, the extracted reply is a string [text]; [chat_history] is
    the old history followed by the Human turn of the prompt and then the
    Assistant turn of [text], and the call returns [text] without its
    leading and trailing white space. *)
Theorem generate_text_success (prompt : str) (system_prompt : option str)
    (st st1 : State) (r : str) :
  try_block prompt
    (request_body
       (compose_prompt system_prompt (chat_history (generator st)) prompt)
       (temperature (generator st))) st = (inr r, st1) ->
  exists text pre post,
    fst (request_reply
           (request_body
              (compose_prompt system_prompt (chat_history (generator st)) prompt)
              (temperature (generator st))) st) = inr (JStr text)
    /\ generate_text prompt system_prompt st = (inr (strip text), st1)
    /\ chat_history (generator st1)
       = chat_history (generator st)
         ++ [u "Human: " ++ prompt; u "Assistant: " ++ text]
    /\ length (chat_history (generator st1))
       = (length (chat_history (generator st)) + 2)%nat
    /\ text = pre ++ strip text ++ post
    /\ forallb isspace pre = true
    /\ forallb isspace post = true
    /\ trimmed (strip text).
Proof.
  intros Htry.
  destruct (try_block_returns _ _ _ _ _ Htry) as [text [Hreply [-> Hgen]]].
  destruct (strip_split text) as [pre [post [Hsplit [Hpre Hpost]]]].
  exists text, pre, post.
  split; [exact Hreply|].
  split.
  { unfold generate_text, bind, get_self, try_except. simpl. now rewrite Htry. }
  rewrite Hgen. simpl.
  split; [reflexivity|].
  split; [rewrite length_app; reflexivity|].
  split; [exact Hsplit|].
  split; [exact Hpre|].
  split; [exact Hpost|apply strip_trimmed].
Qed.

End GenerateText.

(** ** Prompt composition *)

Lemma fold_left_lines (history : list str) (acc : str) :
  fold_left (fun acc history_item => acc ++ (history_item ++ nl)) history acc
  = acc ++ history_lines history.
Proof.
  revert acc. induction history as [|turn history IH]; intros acc; simpl.
  - unfold history_lines. simpl. now rewrite app_nil_r.
  - rewrite IH. unfold history_lines. simpl. now rewrite <- !app_assoc.
Qed.

(** The composed prompt, whatever the history. *)
Lemma compose_prompt_eq (system_prompt : option str) (history : list str) (prompt : str) :
  compose_prompt system_prompt history prompt
  = system_line system_prompt
    ++ match history with
       | [] => []
       | _ :: _ => u "대화 히스토리:" ++ nl ++ history_lines history
       end
    ++ u "Human: " ++ prompt ++ nl ++ u "Assistant:".
Proof.
  unfold compose_prompt, system_line. cbv zeta.
  destruct system_prompt as [[|c s]|]; destruct history as [|turn history];
    rewrite ?fold_left_lines, <- ?app_assoc; reflexivity.
Qed.

(** C3, as amended. With a stored history that is not empty, the composed
    prompt is the system line (when there is one), then the label
    [대화 히스토리:] and a newline, then every stored turn followed by a
    newline, in stored order, then the new Human line and [Assistant:]. *)
Theorem history_block_in_prompt (system_prompt : option str) (history : list str)
    (prompt : str) :
  history <> [] ->
  compose_prompt system_prompt history prompt
  = system_line system_prompt
    ++ u "대화 히스토리:" ++ nl
    ++ concat (map (fun turn => turn ++ nl) history)
    ++ u "Human: " ++ prompt ++ nl ++ u "Assistant:".
Proof.
  intros Hne. rewrite compose_prompt_eq.
  destruct history as [|turn history]; [contradiction|].
  unfold history_lines. now rewrite <- !app_assoc.
Qed.

Lemma history_block_in_prompt_witness :
  [u "Human: a"; u "Assistant: b"] <> []
  /\ compose_prompt (Some (u "S")) [u "Human: a"; u "Assistant: b"] (u "c")
     = system_line (Some (u "S"))
       ++ u "대화 히스토리:" ++ nl
       ++ concat (map (fun turn => turn ++ nl) [u "Human: a"; u "Assistant: b"])
       ++ u "Human: c" ++ nl ++ u "Assistant:".
Proof.
  split; [discriminate|].
  apply (history_block_in_prompt (Some (u "S")) [u "Human: a"; u "Assistant: b"] (u "c")).
  discriminate.
Defined.

(** C3, as stated, fails: with the history of one earlier turn the
    composed prompt is not the one with the label [conversation history:],
    and that label occurs nowhere in it. *)
Lemma english_label_not_in_prompt :
  compose_prompt None [u "Human: a"; u "Assistant: b"] (u "c")
  <> u "conversation history:" ++ nl
     ++ u "Human: a" ++ nl ++ u "Assistant: b" ++ nl
     ++ u "Human: c" ++ nl ++ u "Assistant:"
  /\ contains (compose_prompt None [u "Human: a"; u "Assistant: b"] (u "c"))
       (u "conversation history:") = false.
Proof.
  split; [|reflexivity].
  intros H. apply (f_equal (fun s => nth 0 s 0)) in H. vm_compute in H. discriminate.
Qed.

(** C4. The two worked examples: no system prompt and no history, input
    [hi]; system prompt [S], the history left by one turn (a, b), input
    [c]. That history is the one a call with prompt [a] answered [b]
    stores. *)
Theorem prompt_worked_examples :
  compose_prompt None [] (u "hi") = u "Human: hi" ++ nl ++ u "Assistant:"
  /\ compose_prompt (Some (u "S")) [u "Human: a"; u "Assistant: b"] (u "c")
     = u "S" ++ nl ++ u "대화 히스토리:" ++ nl
       ++ u "Human: a" ++ nl ++ u "Assistant: b" ++ nl
       ++ u "Human: c" ++ nl ++ u "Assistant:"
  /\ chat_history
       (generator
          (snd (generate_text (P := answering (JStr (u "b"))) (u "a") (Some (u "S"))
                  fresh_state)))
     = [u "Human: a"; u "Assistant: b"].
Proof. repeat split; reflexivity. Qed.

(** C8. The composed prompt is a function of the system prompt, the
    stored history and the new prompt alone: two calls that agree on the
    three, on any two platforms and in any two states (other attributes,
    environment, console and earlier calls may differ), send the same
    content, the value of [compose_prompt] on the three. *)
Theorem prompt_composition_pure (P1 P2 : Platform) (st1 st2 : State) (prompt : str)
    (system_prompt : option str) :
  chat_history (generator st1) = chat_history (generator st2) ->
  let content := compose_prompt system_prompt (chat_history (generator st1)) prompt in
  compose_prompt system_prompt (chat_history (generator st2)) prompt = content
  /\ trace (world (snd (generate_text (P := P1) prompt system_prompt st1)))
     = trace (world st1)
       ++ [ModelInvoked (model_id (generator st1))
             (json_dumps (P := P1) (request_body content (temperature (generator st1))))]
  /\ trace (world (snd (generate_text (P := P2) prompt system_prompt st2)))
     = trace (world st2)
       ++ [ModelInvoked (model_id (generator st2))
             (json_dumps (P := P2) (request_body content (temperature (generator st2))))].
Proof.
  intros Hh content. subst content.
  split; [now rewrite Hh|].
  split.
  - apply generate_text_trace.
  - rewrite Hh. apply (generate_text_trace (P := P2)).
Qed.

Lemma prompt_composition_pure_witness :
  let st2 :=
    {| generator := with_max_tokens 7 fresh_generator;
       world := with_stdout [u "x"] empty_world |} in
  chat_history (generator fresh_state) = chat_history (generator st2)
  /\ compose_prompt (Some (u "S")) (chat_history (generator st2)) (u "c")
     = compose_prompt (Some (u "S")) (chat_history (generator fresh_state)) (u "c").
Proof.
  split; [reflexivity|].
  exact (proj1 (prompt_composition_pure (answering JNull) unreachable fresh_state
                  {| generator := with_max_tokens 7 fresh_generator;
                     world := with_stdout [u "x"] empty_world |}
                  (u "c") (Some (u "S")) eq_refl)).
Defined.

(** C9. An empty system prompt is no system prompt: the composed prompt
    has no system line and is the one composed without a system prompt,
    and the whole call behaves the same. *)
Theorem empty_system_prompt_is_none (P : Platform) (history : list str) (prompt : str)
    (st : State) :
  compose_prompt (Some []) history prompt = compose_prompt None history prompt
  /\ system_line (Some []) = []
  /\ compose_prompt (Some []) [] prompt = u "Human: " ++ prompt ++ nl ++ u "Assistant:"
  /\ generate_text prompt (Some []) st = generate_text prompt None st.
Proof. repeat split; reflexivity. Qed.

(** ** The request and [max_tokens] *)

(** The request does not depend on [max_tokens]. *)
Lemma request_ignores_max_tokens (P : Platform) (m : Z) (prompt : str)
    (system_prompt : option str) (st : State) :
  trace (world (snd (generate_text prompt system_prompt
                       {| generator := with_max_tokens m (generator st);
                          world := world st |})))
  = trace (world (snd (generate_text prompt system_prompt st))).
Proof. rewrite !generate_text_trace. reflexivity. Qed.

(** The payload has the two keys [messages] and [temperature]. *)
Lemma request_body_keys (full_prompt : str) (t : float) :
  match request_body full_prompt t with
  | JObj items => map fst items = [u "messages"; u "temperature"]
  | _ => False
  end.
Proof. reflexivity. Qed.

(** C2, on the code. The instance built with the defaults has
    [max_tokens = 200]; the request it sends for the prompt [hi] is the
    text below, in which 200 does not occur. *)
Theorem max_tokens_absent_from_request :
  let body :=
    json_text
      "{'messages': [{'role': 'user', 'content': 'Human: hi|Assistant:'}], 'temperature': 0.7}" in
  max_tokens fresh_generator = 200%Z
  /\ trace (world (snd (generate_text (P := answering (JStr (u "ok"))) (u "hi") None
                          fresh_state)))
     = [ModelInvoked default_model_id body]
  /\ contains body (int_str (max_tokens fresh_generator)) = false
  /\ contains body (u "max_tokens") = false.
Proof. repeat split; reflexivity. Qed.

(** The two theorems above on concrete endpoints. *)

Lemma generate_text_failure_keeps_history_witness :
  fst (generate_text (P := unreachable) (u "hi") None fresh_state) = inr []
  /\ chat_history
       (generator (snd (generate_text (P := unreachable) (u "hi") None fresh_state)))
     = chat_history (generator fresh_state).
Proof.
  pose proof (generate_text_failure_keeps_history (P := unreachable) (u "hi") None
                fresh_state (ExternalError (u "EndpointConnectionError")) eq_refl)
    as [Hret [_ [Hhist _]]].
  split; [exact Hret | exact Hhist].
Defined.

Lemma generate_text_success_witness :
  exists text,
    generate_text (P := answering (JStr (u " b "))) (u "a") None fresh_state
    = (inr (strip text),
       snd (generate_text (P := answering (JStr (u " b "))) (u "a") None fresh_state))
    /\ strip text = u "b".
Proof.
  destruct (generate_text_success (P := answering (JStr (u " b "))) (u "a") None
              fresh_state
              (snd (generate_text (P := answering (JStr (u " b "))) (u "a") None
                      fresh_state))
              (u "b") eq_refl)
    as [text [pre [post [Hreply [Hcall _]]]]].
  exists text. split; [exact Hcall|].
  vm_compute in Hreply. injection Hreply as <-. reflexivity.
Defined.

(** A reply that is not a string: the two turns are stored before
    [strip] raises, and the call returns the empty string. *)
Example non_string_reply :
  generate_text (P := answering JNull) (u "a") None fresh_state
  = (inr [],
     {| generator := with_history [u "Human: a"; u "Assistant: None"] fresh_generator;
        world :=
          {| environ := ∅;
             stdout := [u "텍스트 생성 중 오류 발생: error" ++ nl];
             trace := [request_sent (P := answering JNull) (u "a") None fresh_state] |} |}).
Proof. reflexivity. Qed.

(** C1, on the code. The endpoint answers the first call of a fresh
    instance, prompt [a], with the response
    [{'choices': [{'message': {'content': null}}]}]. The reply is
    extracted, lines 89-90 store both turns, and [strip] at line 92 raises
    [AttributeError] inside the [try]: the call fails, it returns the
    empty string, and [chat_history], empty before the call, holds two
    entries after it. *)
Theorem failed_call_stores_turns :
  let body := request_body (compose_prompt None [] (u "a")) default_temperature in
  let call := generate_text (P := answering JNull) (u "a") None fresh_state in
  fst (request_reply (P := answering JNull) body fresh_state) = inr JNull
  /\ fst (try_block (P := answering JNull) (u "a") body fresh_state) = inl AttributeError
  /\ fst call = inr []
  /\ chat_history (generator fresh_state) = []
  /\ chat_history (generator (snd call)) = [u "Human: a"; u "Assistant: None"]
  /\ length (chat_history (generator (snd call))) = 2%nat.
Proof. repeat split; reflexivity. Qed.

(** ** The constructor *)

Section Constructor.

Context `{P : Platform}.

Lemma credentials_checked (w : World) :
  forallb (fun key => bool_decide (is_Some (environ w !! key))) credential_keys = true
  <-> forall key, In key credential_keys -> is_Some (environ w !! key).
Proof.
  rewrite forallb_forall. split; intros H key Hin.
  - specialize (H key Hin). now apply bool_decide_eq_true in H.
  - apply bool_decide_eq_true_2. auto.
Qed.

(** C6. When one of the two credential variables is not in the
    environment, the constructor raises the configuration error, no
    instance (hence no [chat_history]) exists, and the world is the one
    before the call: no client was created, no request was sent. *)
Theorem init_requires_credentials (model_id region_name : str) (max_tokens : Z)
    (temperature : float) (w : World) (key : str) :
  In key credential_keys ->
  environ w !! key = None ->
  BedrockTextGenerator_init model_id region_name max_tokens temperature w
  = (inl (EnvironmentError (u "AWS 자격증명 환경변수를 설정해주세요.")), w)
  /\ trace (snd (BedrockTextGenerator_init model_id region_name max_tokens temperature w))
     = trace w.
Proof.
  intros Hin Hnone.
  assert (Hchk : forallb (fun key => bool_decide (is_Some (environ w !! key)))
                   credential_keys = false).
  { apply not_true_is_false. intros Hall.
    destruct (proj1 (credentials_checked w) Hall key Hin) as [x Hx].
    rewrite Hnone in Hx. discriminate. }
  unfold BedrockTextGenerator_init. rewrite Hchk. auto.
Qed.

(** With both variables present the constructor goes past the check:
    it asks boto3 for the client, and its outcome is that of the client. *)
Lemma init_past_check (model_id region_name : str) (max_tokens : Z)
    (temperature : float) (w : World) :
  is_Some (environ w !! u "AWS_ACCESS_KEY_ID") ->
  is_Some (environ w !! u "AWS_SECRET_ACCESS_KEY") ->
  BedrockTextGenerator_init model_id region_name max_tokens temperature w
  = (match client_failure (u "bedrock-runtime") region_name with
     | Some descr => inl (ExternalError descr)
     | None =>
         inr {| bedrock_runtime :=
                  {| service_name := u "bedrock-runtime"; region_name := region_name |};
                model_id := model_id;
                max_tokens := max_tokens;
                temperature := temperature;
                chat_history := [] |}
     end,
     with_trace (trace w ++ [ClientCreated (u "bedrock-runtime") region_name]) w).
Proof.
  intros Ha Hs.
  assert (Hchk : forallb (fun key => bool_decide (is_Some (environ w !! key)))
                   credential_keys = true).
  { apply credentials_checked. intros key [<-|[<-|[]]]; assumption. }
  unfold BedrockTextGenerator_init. rewrite Hchk. simpl negb. cbv iota.
  destruct (client_failure (u "bedrock-runtime") region_name); reflexivity.
Qed.

(** C10. The check is on the presence of the two variables, whatever
    their values, the empty string included: the constructor then does not
    raise the configuration error, asks boto3 for the client and, when
    boto3 gives it, returns the instance with an empty history. *)
Theorem init_checks_presence_only (model_id region_name : str) (max_tokens : Z)
    (temperature : float) (w : World) (access secret : str) :
  environ w !! u "AWS_ACCESS_KEY_ID" = Some access ->
  environ w !! u "AWS_SECRET_ACCESS_KEY" = Some secret ->
  let r := BedrockTextGenerator_init model_id region_name max_tokens temperature w in
  (forall msg, fst r <> inl (EnvironmentError msg))
  /\ trace (snd r) = trace w ++ [ClientCreated (u "bedrock-runtime") region_name]
  /\ (client_failure (u "bedrock-runtime") region_name = None ->
      fst r
      = inr {| bedrock_runtime :=
                 {| service_name := u "bedrock-runtime"; region_name := region_name |};
               model_id := model_id;
               max_tokens := max_tokens;
               temperature := temperature;
               chat_history := [] |}).
Proof.
  intros Ha Hs r. subst r.
  rewrite init_past_check by eauto.
  destruct (client_failure (u "bedrock-runtime") region_name) as [descr|];
    simpl fst; simpl snd; repeat split; discriminate.
Qed.

(** The entry point sets both variables (to the empty string) before it
    constructs, so its constructor always goes past the check. *)
Lemma main_constructs (stdin : list str) (w : World) :
  main stdin w
  = let w0 :=
      with_environ
        (<[u "AWS_DEFAULT_REGION" := u "us-east-1"]>
           (<[u "AWS_SECRET_ACCESS_KEY" := []]>
              (<[u "AWS_ACCESS_KEY_ID" := []]> (environ w)))) w in
    let w1 :=
      with_trace (trace w ++ [ClientCreated (u "bedrock-runtime") default_region_name])
        w0 in
    match client_failure (u "bedrock-runtime") default_region_name with
    | Some descr => (inl (ExternalError descr), stdin, w1)
    | None =>
        let '(r, rest, st) :=
          interactive_chat (Some (u "너는 친절하고 도움이 되는 AI 어시스턴트야.")) stdin
            {| generator := fresh_generator; world := w1 |} in
        (r, rest, world st)
    end.
Proof.
  unfold main. cbv zeta. rewrite init_past_check.
  - destruct (client_failure (u "bedrock-runtime") default_region_name); reflexivity.
  - exists []. simpl environ.
    rewrite lookup_insert_ne by (intros H; vm_compute in H; discriminate).
    rewrite lookup_insert_ne by (intros H; vm_compute in H; discriminate).
    apply lookup_insert_eq.
  - exists []. simpl environ.
    rewrite lookup_insert_ne by (intros H; vm_compute in H; discriminate).
    apply lookup_insert_eq.
Qed.

End Constructor.

Lemma init_requires_credentials_witness :
  BedrockTextGenerator_init (P := unreachable) default_model_id default_region_name
    default_max_tokens default_temperature
    (with_environ {[ u "AWS_ACCESS_KEY_ID" := u "AKIA" ]} empty_world)
  = (inl (EnvironmentError (u "AWS 자격증명 환경변수를 설정해주세요.")),
     with_environ {[ u "AWS_ACCESS_KEY_ID" := u "AKIA" ]} empty_world).
Proof.
  refine (proj1 (init_requires_credentials (P := unreachable) default_model_id
                   default_region_name default_max_tokens default_temperature
                   (with_environ {[ u "AWS_ACCESS_KEY_ID" := u "AKIA" ]} empty_world)
                   (u "AWS_SECRET_ACCESS_KEY") _ _)).
  - right. left. reflexivity.
  - vm_compute. reflexivity.
Defined.

(** The environment the entry point sets up before it constructs. *)
Lemma init_checks_presence_only_witness :
  let w :=
    with_environ
      (<[u "AWS_DEFAULT_REGION" := u "us-east-1"]>
         (<[u "AWS_SECRET_ACCESS_KEY" := []]>
            (<[u "AWS_ACCESS_KEY_ID" := []]> ∅))) empty_world in
  fst (BedrockTextGenerator_init (P := unreachable) default_model_id default_region_name
         default_max_tokens default_temperature w)
  = inr fresh_generator.
Proof.
  intros w.
  refine (proj2 (proj2 (init_checks_presence_only (P := unreachable) default_model_id
                          default_region_name default_max_tokens default_temperature
                          w [] [] _ _)) eq_refl).
  - vm_compute. reflexivity.
  - vm_compute. reflexivity.
Defined.

(** ** The console loop *)

Section InteractiveChat.

Context `{P : Platform}.

Lemma chat_loop_nil (system_prompt : option str) (st : State) :
  chat_loop system_prompt [] st = (inl EOFError, [], asked st).
Proof. reflexivity. Qed.

Lemma chat_loop_cons (system_prompt : option str) (user_input : str)
    (rest : list str) (st : State) :
  chat_loop system_prompt (user_input :: rest) st
  = if decide (user_input = u "종료") then (inr tt, rest, dismissed (asked st))
    else
      match chat_turn system_prompt user_input (asked st) with
      | (inr _, st1) => chat_loop system_prompt rest st1
      | (inl e, st1) => (inl e, rest, st1)
      end.
Proof. reflexivity. Qed.

(** A turn never raises: [generate_text] catches its own exceptions. *)
Lemma chat_turn_returns (system_prompt : option str) (user_input : str) (st : State) :
  fst (chat_turn system_prompt user_input st) = inr tt.
Proof.
  unfold chat_turn, try_except, bind.
  destruct (generate_text_returns user_input system_prompt st) as [r Hr].
  destruct (generate_text user_input system_prompt st) as [[e|r0] st1]; simpl in Hr.
  - discriminate.
  - reflexivity.
Qed.

(** A turn hands its line to [generate_text] as the prompt: the request
    sent is the one composed for that line. *)
Lemma chat_turn_trace (system_prompt : option str) (user_input : str) (st : State) :
  trace (world (snd (chat_turn system_prompt user_input st)))
  = trace (world st) ++ [request_sent user_input system_prompt st].
Proof.
  pose proof (generate_text_trace user_input system_prompt st) as Ht.
  pose proof (generate_text_returns user_input system_prompt st) as [r Hr].
  unfold chat_turn, try_except, bind.
  destruct (generate_text user_input system_prompt st) as [[e|r0] st1];
    simpl in *; [discriminate | exact Ht].
Qed.

(** A line other than the sentinel: one turn, then the loop goes on. *)
Lemma chat_loop_forward (system_prompt : option str) (user_input : str)
    (rest : list str) (st : State) :
  user_input <> u "종료" ->
  chat_loop system_prompt (user_input :: rest) st
  = chat_loop system_prompt rest (snd (chat_turn system_prompt user_input (asked st))).
Proof.
  intros Hne. rewrite chat_loop_cons.
  destruct (decide (user_input = u "종료")) as [Heq|_]; [contradiction|].
  pose proof (chat_turn_returns system_prompt user_input (asked st)) as Hr.
  destruct (chat_turn system_prompt user_input (asked st)) as [[e|[]] st1];
    simpl in *; [discriminate | reflexivity].
Qed.

Lemma chat_loop_run (system_prompt : option str) (inputs : list str) (st : State) :
  ~ In (u "종료") inputs ->
  (forall rest,
      chat_loop system_prompt (inputs ++ u "종료" :: rest) st
      = (inr tt, rest, dismissed (asked (after_turns system_prompt inputs st))))
  /\ chat_loop system_prompt inputs st
     = (inl EOFError, [], asked (after_turns system_prompt inputs st)).
Proof.
  revert st. induction inputs as [|line inputs IH]; intros st Hnot.
  - split; [intros rest|]; simpl app.
    + rewrite chat_loop_cons.
      destruct (decide (u "종료" = u "종료")) as [_|Hne]; [reflexivity | contradiction].
    + apply chat_loop_nil.
  - assert (Hline : line <> u "종료") by (intros ->; apply Hnot; left; reflexivity).
    assert (Hrest : ~ In (u "종료") inputs) by (intros Hin; apply Hnot; right; exact Hin).
    destruct (IH (snd (chat_turn system_prompt line (asked st))) Hrest) as [IH1 IH2].
    split; [intros rest|].
    + rewrite <- app_comm_cons, chat_loop_forward by exact Hline. apply IH1.
    + rewrite chat_loop_forward by exact Hline. apply IH2.
Qed.

(** C7. Let [inputs] be lines none of which is the sentinel [종료] (the
    empty line may be among them). If the operator types them and then
    the sentinel, the loop ends normally at the sentinel, leaving what
    follows unread, and if the operator types them and nothing more the
    loop does not end normally: it is still asking when the input runs
    out. Either way each of the lines was handed in order and unchanged to
    [generate_text], whose request for that line was sent, and the loop
    went on to the next line. *)
Theorem interactive_chat_sentinel (system_prompt : option str) (inputs : list str)
    (st : State) :
  ~ In (u "종료") inputs ->
  (forall rest,
      interactive_chat system_prompt (inputs ++ u "종료" :: rest) st
      = (inr tt, rest,
         dismissed (asked (after_turns system_prompt inputs (greeted st)))))
  /\ interactive_chat system_prompt inputs st
     = (inl EOFError, [], asked (after_turns system_prompt inputs (greeted st)))
  /\ (forall line rest st1,
         In line inputs ->
         chat_loop system_prompt (line :: rest) st1
         = chat_loop system_prompt rest
             (snd (chat_turn system_prompt line (asked st1)))
         /\ trace (world (snd (chat_turn system_prompt line (asked st1))))
            = trace (world st1) ++ [request_sent line system_prompt st1]).
Proof.
  intros Hnot.
  destruct (chat_loop_run system_prompt inputs (greeted st) Hnot) as [Hstop Heof].
  split; [exact Hstop|]. split; [exact Heof|].
  intros line rest st1 Hin.
  assert (Hline : line <> u "종료") by (intros ->; contradiction).
  split.
  - apply chat_loop_forward, Hline.
  - apply (chat_turn_trace system_prompt line (asked st1)).
Qed.

End InteractiveChat.

Lemma interactive_chat_sentinel_witness :
  fst (interactive_chat (P := answering (JStr (u "ok"))) None
         ([[]; u "hi"] ++ u "종료" :: [u "unread"]) fresh_state)
  = (inr tt, [u "unread"])
  /\ fst (interactive_chat (P := answering (JStr (u "ok"))) None [[]; u "hi"] fresh_state)
     = (inl EOFError, []).
Proof.
  assert (Hnot : ~ In (u "종료") [[]; u "hi"]).
  { intros [H|[H|[]]]; vm_compute in H; discriminate. }
  pose proof (interactive_chat_sentinel (P := answering (JStr (u "ok"))) None
                [[]; u "hi"] fresh_state Hnot) as [Hstop [Heof _]].
  split.
  - exact (f_equal fst (Hstop [u "unread"])).
  - exact (f_equal fst Heof).
Defined.

(** * Further properties *)

(** ** What a call of [generate_text] does, case by case *)

Lemma generate_text_cases (P : Platform) (prompt : str) (system_prompt : option str)
    (st : State) :
  generate_text prompt system_prompt st
  = let g := generator st in
    let w1 :=
      with_trace (trace (world st) ++ [request_sent prompt system_prompt st]) (world st) in
    match fst (request_reply
                 (request_body (compose_prompt system_prompt (chat_history g) prompt)
                    (temperature g)) st) with
    | inl e =>
        (inr [],
         {| generator := g;
            world := with_stdout (stdout (world st) ++ [diagnostic e]) w1 |})
    | inr v =>
        let g1 :=
          with_history (chat_history g ++ turn_entries prompt (format_value v)) g in
        match strip_method v with
        | inr r => (inr r, {| generator := g1; world := w1 |})
        | inl e =>
            (inr [],
             {| generator := g1;
                world := with_stdout (stdout (world st) ++ [diagnostic e]) w1 |})
        end
    end.
Proof.
  unfold generate_text, bind, get_self, try_except, try_block. simpl.
  set (body := request_body _ _).
  pose proof (request_reply_effect body st) as Heff.
  unfold bind.
  destruct (request_reply body st) as [[e|v] st0]; simpl in *; subst st0.
  - reflexivity.
  - unfold lift, with_history, turn_entries. simpl. rewrite <- app_assoc. simpl.
    destruct (strip_method v); reflexivity.
Qed.

Lemma lstrip_blank (s : str) : forallb isspace s = true -> lstrip s = [].
Proof.
  induction s as [|c s IH]; simpl; [reflexivity|].
  intros H. apply andb_prop in H as [Hc Hs]. rewrite Hc. auto.
Qed.

Lemma strip_blank (s : str) : forallb isspace s = true -> strip s = [].
Proof. intros H. unfold strip. now rewrite (lstrip_blank s H). Qed.


(** X2. A reply that is not a string: both entries are stored (the
    Assistant entry holds the formatted value), [strip] then raises, the
    diagnostic is printed and the call returns the empty string. *)
Theorem non_string_reply_stored (P : Platform) (prompt : str)
    (system_prompt : option str) (st : State) (v : json) :
  fst (request_reply
         (request_body
            (compose_prompt system_prompt (chat_history (generator st)) prompt)
            (temperature (generator st))) st) = inr v ->
  (forall s, v <> JStr s) ->
  let st1 := snd (generate_text prompt system_prompt st) in
  fst (generate_text prompt system_prompt st) = inr []
  /\ chat_history (generator st1)
     = chat_history (generator st) ++ turn_entries prompt (format_value v)
  /\ stdout (world st1) = stdout (world st) ++ [diagnostic AttributeError].
Proof.
  intros Hv Hns. rewrite generate_text_cases. cbv zeta. rewrite Hv.
  destruct v; simpl; auto. now destruct (Hns s).
Qed.

Lemma non_string_reply_stored_witness :
  fst (generate_text (P := answering (JInt 42)) (u "a") None fresh_state) = inr []
  /\ chat_history
       (generator (snd (generate_text (P := answering (JInt 42)) (u "a") None fresh_state)))
     = [u "Human: a"; u "Assistant: 42"].
Proof.
  assert (Hns : forall s, JInt 42 <> JStr s) by (intros s; discriminate).
  pose proof (non_string_reply_stored (answering (JInt 42)) (u "a") None fresh_state
                (JInt 42) eq_refl Hns) as [Hret [Hhist _]].
  split; [exact Hret | exact Hhist].
Defined.

(** X3. A reply of white space only: the call succeeds, stores both
    entries and prints nothing, and returns the empty string, the value a
    failed call returns. *)
Theorem blank_reply_returns_empty (P : Platform) (prompt : str)
    (system_prompt : option str) (st : State) (text : str) :
  fst (request_reply
         (request_body
            (compose_prompt system_prompt (chat_history (generator st)) prompt)
            (temperature (generator st))) st) = inr (JStr text) ->
  forallb isspace text = true ->
  let st1 := snd (generate_text prompt system_prompt st) in
  fst (generate_text prompt system_prompt st) = inr []
  /\ chat_history (generator st1)
     = chat_history (generator st) ++ turn_entries prompt text
  /\ stdout (world st1) = stdout (world st).
Proof.
  intros Hv Hblank. rewrite generate_text_cases. cbv zeta. rewrite Hv.
  simpl. rewrite (strip_blank text Hblank). auto.
Qed.

Lemma blank_reply_returns_empty_witness :
  fst (generate_text (P := answering (JStr (u "  "))) (u "a") None fresh_state) = inr []
  /\ chat_history
       (generator
          (snd (generate_text (P := answering (JStr (u "  "))) (u "a") None fresh_state)))
     = [u "Human: a"; u "Assistant:   "].
Proof.
  pose proof (blank_reply_returns_empty (answering (JStr (u "  "))) (u "a") None
                fresh_state (u "  ") eq_refl eq_refl) as [Hret [Hhist _]].
  split; [exact Hret | exact Hhist].
Defined.

(** ** Which responses give a reply *)

(** Lines 81-87 on a response that was read and parsed. *)
Lemma request_reply_parsed (P : Platform) (body : json) (st : State) (raw : bytes)
    (response_body : json) :
  invoke_model (trace (world st)) (bedrock_runtime (generator st))
    (model_id (generator st)) (json_dumps body) = inr (Body (inr raw)) ->
  json_loads raw = inr response_body ->
  fst (request_reply body st)
  = match getitem_key response_body (u "choices") with
    | inl e => inl e
    | inr choices =>
        match getitem_0 choices with
        | inl e => inl e
        | inr choice =>
            match getitem_key choice (u "message") with
            | inl e => inl e
            | inr message => getitem_key message (u "content")
            end
        end
    end.
Proof.
  intros Hinv Hload.
  unfold request_reply, bind, get_self, call_invoke_model, lift. simpl.
  rewrite Hinv. simpl. rewrite Hload. simpl.
  destruct (getitem_key response_body (u "choices")) as [e|choices]; [reflexivity|].
  simpl. destruct (getitem_0 choices) as [e|choice]; [reflexivity|].
  simpl. destruct (getitem_key choice (u "message")) as [e|message]; [reflexivity|].
  simpl. destruct (getitem_key message (u "content")); reflexivity.
Qed.

Lemma getitem_key_inr (v x : json) (key : str) :
  getitem_key v key = inr x <-> exists items, v = JObj items /\ dict_get items key = Some x.
Proof.
  split.
  - destruct v; simpl; try discriminate.
    destruct (dict_get items key) eqn:Hget; [|discriminate].
    intros H. injection H as <-. eauto.
  - intros [items [-> Hget]]. simpl. now rewrite Hget.
Qed.

(** X4. The reply is extracted exactly when the endpoint returns a body
    that can be read and parsed to a dict whose [choices] is a list with a
    dict first, whose [message] is a dict with a [content]; the reply is
    that content. Later choices and other keys play no part. *)
Theorem reply_extracted_iff (P : Platform) (body : json) (st : State) (v : json) :
  fst (request_reply body st) = inr v
  <-> exists raw top choice others message,
        invoke_model (trace (world st)) (bedrock_runtime (generator st))
          (model_id (generator st)) (json_dumps body) = inr (Body (inr raw))
        /\ json_loads raw = inr (JObj top)
        /\ dict_get top (u "choices") = Some (JArr (JObj choice :: others))
        /\ dict_get choice (u "message") = Some (JObj message)
        /\ dict_get message (u "content") = Some v.
Proof.
  split.
  - intros H.
    destruct (invoke_model (trace (world st)) (bedrock_runtime (generator st))
                (model_id (generator st)) (json_dumps body))
      as [descr|[[descr|raw]]] eqn:Hinv;
      try (unfold request_reply, bind, get_self, call_invoke_model, lift in H;
           simpl in H; rewrite Hinv in H; simpl in H; discriminate).
    destruct (json_loads raw) as [descr|response_body] eqn:Hload;
      try (unfold request_reply, bind, get_self, call_invoke_model, lift in H;
           simpl in H; rewrite Hinv in H; simpl in H; rewrite Hload in H;
           simpl in H; discriminate).
    rewrite (request_reply_parsed P body st raw response_body Hinv Hload) in H.
    destruct (getitem_key response_body (u "choices")) as [e|choices] eqn:H1;
      [discriminate|].
    destruct (getitem_0 choices) as [e|choice] eqn:H2; [discriminate|].
    destruct (getitem_key choice (u "message")) as [e|message] eqn:H3; [discriminate|].
    apply getitem_key_inr in H1 as [top [-> Htop]].
    apply getitem_key_inr in H3 as [citems [-> Hmsg]].
    apply getitem_key_inr in H as [mitems [-> Hcontent]].
    destruct choices as [| | | | [|c s] | [|x others] | ]; simpl in H2;
      try discriminate; injection H2 as ->.
    exists raw, top, citems, others, mitems. auto.
  - intros [raw [top [choice [others [message [Hinv [Hload [H1 [H2 H3]]]]]]]]].
    rewrite (request_reply_parsed P body st raw (JObj top) Hinv Hload).
    simpl. rewrite H1. simpl. rewrite H2. simpl. now rewrite H3.
Qed.

(** X5. A response that was read and parsed but has the wrong shape:
    not a dict, [TypeError]; a dict without [choices], [KeyError];
    [choices] an empty list, [IndexError]. Each is caught: the call
    returns the empty string and the history is as before. *)
Theorem malformed_response_errors (P : Platform) (prompt : str)
    (system_prompt : option str) (st : State) (raw : bytes) (response_body : json) :
  let body :=
    request_body (compose_prompt system_prompt (chat_history (generator st)) prompt)
      (temperature (generator st)) in
  invoke_model (trace (world st)) (bedrock_runtime (generator st))
    (model_id (generator st)) (json_dumps body) = inr (Body (inr raw)) ->
  json_loads raw = inr response_body ->
  ((forall items, response_body <> JObj items) ->
   fst (request_reply body st) = inl TypeError)
  /\ (forall items,
         response_body = JObj items -> dict_get items (u "choices") = None ->
         fst (request_reply body st) = inl KeyError)
  /\ (forall items,
         response_body = JObj items ->
         dict_get items (u "choices") = Some (JArr []) ->
         fst (request_reply body st) = inl IndexError)
  /\ (forall e,
         fst (request_reply body st) = inl e ->
         generate_text prompt system_prompt st
         = (inr [],
            {| generator := generator st;
               world :=
                 with_stdout (stdout (world st) ++ [diagnostic e])
                   (with_trace
                      (trace (world st) ++ [request_sent prompt system_prompt st])
                      (world st)) |})).
Proof.
  intros body Hinv Hload.
  rewrite (request_reply_parsed P body st raw response_body Hinv Hload).
  repeat split.
  - intros Hnd. destruct response_body; try reflexivity. now destruct (Hnd items).
  - intros items -> Hnone. simpl. now rewrite Hnone.
  - intros items -> Hsome. simpl. now rewrite Hsome.
  - intros e He. rewrite generate_text_cases. cbv zeta. fold body.
    rewrite (request_reply_parsed P body st raw response_body Hinv Hload), He.
    reflexivity.
Qed.

Lemma malformed_response_errors_witness :
  fst (request_reply (P := responding (JObj []))
         (request_body (compose_prompt None [] (u "hi")) default_temperature)
         fresh_state) = inl KeyError.
Proof.
  exact (proj1 (proj2 (malformed_response_errors (responding (JObj [])) (u "hi") None
                         fresh_state [] (JObj []) eq_refl eq_refl))
           [] eq_refl eq_refl).
Defined.

Lemma reply_extracted_iff_witness :
  fst (request_reply (P := answering (JStr (u "b")))
         (request_body (compose_prompt None [] (u "a")) default_temperature)
         fresh_state) = inr (JStr (u "b")).
Proof.
  apply (proj2 (reply_extracted_iff (answering (JStr (u "b")))
                  (request_body (compose_prompt None [] (u "a")) default_temperature)
                  fresh_state (JStr (u "b")))).
  exists [], [(u "choices", JArr [JObj [(u "message", JObj [(u "content", JStr (u "b"))])]])],
    [(u "message", JObj [(u "content", JStr (u "b"))])], [],
    [(u "content", JStr (u "b"))].
  repeat split; reflexivity.
Defined.

(** ** The prompt from one call to the next *)

Lemma history_lines_app (h1 h2 : list str) :
  history_lines (h1 ++ h2) = history_lines h1 ++ history_lines h2.
Proof. unfold history_lines. now rewrite map_app, concat_app. Qed.

Lemma history_lines_turn (prompt reply : str) :
  history_lines (turn_entries prompt reply)
  = u "Human: " ++ prompt ++ nl ++ u "Assistant: " ++ reply ++ nl.
Proof.
  unfold history_lines, turn_entries. cbn [map concat].
  rewrite app_nil_r, <- !app_assoc. reflexivity.
Qed.

(** The composed prompt after one more stored turn. *)
Lemma compose_prompt_after_turn (system_prompt : option str) (history : list str)
    (prompt reply next : str) :
  compose_prompt system_prompt (history ++ turn_entries prompt reply) next
  = system_line system_prompt
    ++ u "대화 히스토리:" ++ nl
    ++ history_lines history
    ++ u "Human: " ++ prompt ++ nl
    ++ u "Assistant: " ++ reply ++ nl
    ++ u "Human: " ++ next ++ nl ++ u "Assistant:".
Proof.
  rewrite compose_prompt_eq.
  destruct (history ++ turn_entries prompt reply) as [|x l] eqn:Hh.
  - destruct history; discriminate.
  - rewrite <- Hh, history_lines_app, history_lines_turn, <- !app_assoc.
    reflexivity.
Qed.

(** X6. After a call that succeeded with the reply [text], the prompt
    composed for the next input is the system line, the label, the lines
    of the earlier history, then the Human line of the last prompt, the
    Assistant line of [text] as it was received (not trimmed), and the
    new Human line and [Assistant:]. *)
Theorem next_prompt_after_success (P : Platform) (prompt next : str)
    (system_prompt : option str) (st : State) (text : str) :
  fst (request_reply
         (request_body
            (compose_prompt system_prompt (chat_history (generator st)) prompt)
            (temperature (generator st))) st) = inr (JStr text) ->
  compose_prompt system_prompt
    (chat_history (generator (snd (generate_text prompt system_prompt st)))) next
  = system_line system_prompt
    ++ u "대화 히스토리:" ++ nl
    ++ history_lines (chat_history (generator st))
    ++ u "Human: " ++ prompt ++ nl
    ++ u "Assistant: " ++ text ++ nl
    ++ u "Human: " ++ next ++ nl ++ u "Assistant:".
Proof.
  intros Hv. rewrite generate_text_cases. cbv zeta. rewrite Hv. simpl.
  apply compose_prompt_after_turn.
Qed.

Lemma next_prompt_after_success_witness :
  compose_prompt None
    (chat_history
       (generator
          (snd (generate_text (P := answering (JStr (u " b "))) (u "a") None fresh_state))))
    (u "c")
  = u "대화 히스토리:" ++ nl
    ++ u "Human: a" ++ nl ++ u "Assistant:  b " ++ nl
    ++ u "Human: c" ++ nl ++ u "Assistant:".
Proof.
  exact (next_prompt_after_success (answering (JStr (u " b "))) (u "a") (u "c") None
           fresh_state (u " b ") eq_refl).
Defined.

(** X7. Turns are not escaped: with a history that is not empty, a
    stored turn followed by a new input composes to the very prompt of a
    single input that spells the turn out after a newline. The endpoint
    cannot tell the two apart. *)
Theorem turn_boundaries_not_escaped (system_prompt : option str) (history : list str)
    (prompt reply next : str) :
  history <> [] ->
  compose_prompt system_prompt (history ++ turn_entries prompt reply) next
  = compose_prompt system_prompt history
      (prompt ++ nl ++ u "Assistant: " ++ reply ++ nl ++ u "Human: " ++ next).
Proof.
  intros Hne. rewrite compose_prompt_after_turn, compose_prompt_eq.
  destruct history as [|x l]; [contradiction|].
  rewrite <- !app_assoc. reflexivity.
Qed.

Lemma turn_boundaries_not_escaped_witness :
  compose_prompt None ([u "Human: a"; u "Assistant: b"] ++ turn_entries (u "c") (u "d"))
    (u "e")
  = compose_prompt None [u "Human: a"; u "Assistant: b"]
      (u "c" ++ nl ++ u "Assistant: d" ++ nl ++ u "Human: e").
Proof.
  apply (turn_boundaries_not_escaped None [u "Human: a"; u "Assistant: b"]
           (u "c") (u "d") (u "e")).
  discriminate.
Defined.

(** ** The loop, turn by turn *)

Section LoopProperties.

Context `{P : Platform}.

(** The handler of the loop is never taken: a turn is the call followed
    by the [AI:] line. *)
Lemma chat_turn_eq (system_prompt : option str) (user_input : str) (st : State) :
  exists r,
    fst (generate_text user_input system_prompt st) = inr r
    /\ chat_turn system_prompt user_input st
       = (inr tt,
          snd (print (u "AI: " ++ r) (snd (generate_text user_input system_prompt st)))).
Proof.
  destruct (generate_text_returns user_input system_prompt st) as [r Hr].
  exists r. split; [exact Hr|].
  unfold chat_turn, try_except, bind.
  destruct (generate_text user_input system_prompt st) as [[e|r0] st1]; simpl in *.
  - discriminate.
  - injection Hr as ->. reflexivity.
Qed.

(** What one turn changes. *)
Lemma chat_turn_effect (system_prompt : option str) (user_input : str) (st : State) :
  let st1 := snd (chat_turn system_prompt user_input st) in
  model_id (generator st1) = model_id (generator st)
  /\ environ (world st1) = environ (world st)
  /\ trace (world st1) = trace (world st) ++ [request_sent user_input system_prompt st]
  /\ (chat_history (generator st1) = chat_history (generator st)
      \/ exists reply,
           chat_history (generator st1)
           = chat_history (generator st) ++ turn_entries user_input reply).
Proof.
  destruct (chat_turn_eq system_prompt user_input st) as [r [_ ->]].
  rewrite generate_text_cases. cbv zeta.
  destruct (fst (request_reply _ st)) as [e|v]; simpl.
  - repeat split; eauto.
  - destruct (strip_method v); simpl; repeat split; eauto.
Qed.

(** A property of the state kept by console output and by a turn is kept
    by the whole loop, however it ends. *)
Lemma chat_loop_invariant (Inv : State -> Prop) (system_prompt : option str) :
  (forall st s, Inv st -> Inv (snd (write s st))) ->
  (forall st line, Inv st -> Inv (snd (chat_turn system_prompt line st))) ->
  forall stdin st, Inv st -> Inv (snd (chat_loop system_prompt stdin st)).
Proof.
  intros Hwrite Hturn stdin.
  induction stdin as [|line rest IH]; intros st Hst.
  - rewrite chat_loop_nil. apply Hwrite, Hst.
  - rewrite chat_loop_cons.
    destruct (decide (line = u "종료")) as [_|_].
    + apply Hwrite, Hwrite, Hst.
    + pose proof (Hturn (asked st) line (Hwrite st _ Hst)) as Hnext.
      destruct (chat_turn system_prompt line (asked st)) as [[e|[]] st1]; simpl in *.
      * exact Hnext.
      * apply IH, Hnext.
Qed.

(** How the loop ends, for every input. *)
Lemma chat_loop_outcome (system_prompt : option str) (stdin : list str) (st : State) :
  (In (u "종료") stdin -> fst (fst (chat_loop system_prompt stdin st)) = inr tt)
  /\ (~ In (u "종료") stdin -> fst (fst (chat_loop system_prompt stdin st)) = inl EOFError).
Proof.
  revert st. induction stdin as [|line rest IH]; intros st.
  - split; [intros []|reflexivity].
  - rewrite chat_loop_cons.
    destruct (decide (line = u "종료")) as [->|Hne].
    + split; [reflexivity|]. intros Hnot. destruct Hnot. now left.
    + pose proof (chat_turn_returns system_prompt line (asked st)) as Hr.
      destruct (chat_turn system_prompt line (asked st)) as [[e|[]] st1];
        simpl in Hr; [discriminate|].
      destruct (IH st1) as [IH1 IH2].
      split.
      * intros [Heq|Hin]; [now destruct Hne | auto].
      * intros Hnot. apply IH2. intros Hin. apply Hnot. now right.
Qed.

Lemma paired_app_turn (history : list str) (prompt reply : str) :
  paired history -> paired (history ++ turn_entries prompt reply).
Proof.
  intros [turns ->]. exists (turns ++ [(prompt, reply)]).
  rewrite flat_map_app. reflexivity.
Qed.

Lemma paired_length (history : list str) :
  paired history -> exists n, length history = (2 * n)%nat.
Proof.
  intros [turns ->]. exists (length turns).
  induction turns as [|t turns IH]; simpl; [reflexivity|].
  rewrite IH. lia.
Qed.

(** X8. The history is always made of whole turns: if it is a sequence
    of Human/Assistant pairs before [interactive_chat], it is one after,
    whatever was typed, whatever the endpoint answered and however the
    loop ended; its length is even. *)
Theorem history_stays_paired (system_prompt : option str) (stdin : list str)
    (st : State) :
  paired (chat_history (generator st)) ->
  paired (chat_history (generator (snd (interactive_chat system_prompt stdin st))))
  /\ exists n,
       length (chat_history (generator (snd (interactive_chat system_prompt stdin st))))
       = (2 * n)%nat.
Proof.
  intros Hst.
  assert (H : paired
                (chat_history
                   (generator (snd (interactive_chat system_prompt stdin st))))).
  { unfold interactive_chat.
    apply (chat_loop_invariant (fun s => paired (chat_history (generator s)))).
    - intros s0 s Hs. exact Hs.
    - intros s0 line Hs.
      destruct (chat_turn_effect system_prompt line s0) as [_ [_ [_ [->|[reply ->]]]]].
      + exact Hs.
      + apply paired_app_turn, Hs.
    - exact Hst. }
  split; [exact H | apply paired_length, H].
Qed.

(** The lines handed to [generate_text]: one request each, the same
    model, at most two more entries each. *)
Lemma after_turns_accounting (system_prompt : option str) (inputs : list str)
    (st : State) :
  let st1 := after_turns system_prompt inputs st in
  model_id (generator st1) = model_id (generator st)
  /\ (length (chat_history (generator st1))
      <= length (chat_history (generator st)) + 2 * length inputs)%nat
  /\ exists requests,
       trace (world st1) = trace (world st) ++ requests
       /\ length requests = length inputs
       /\ Forall (fun e => exists body, e = ModelInvoked (model_id (generator st)) body)
            requests.
Proof.
  revert st. induction inputs as [|line inputs IH]; intros st; cbv zeta.
  - split; [reflexivity|]. split; [simpl; lia|].
    exists []. simpl. rewrite app_nil_r. auto.
  - change (after_turns system_prompt (line :: inputs) st)
      with (after_turns system_prompt inputs
              (snd (chat_turn system_prompt line (asked st)))).
    destruct (chat_turn_effect system_prompt line (asked st))
      as [Hm [_ [Ht Hh]]].
    destruct (IH (snd (chat_turn system_prompt line (asked st))))
      as [IHm [IHh [requests [IHt [IHl IHf]]]]].
    change (generator (asked st)) with (generator st) in *.
    change (trace (world (asked st))) with (trace (world st)) in *.
    split; [congruence|]. split.
    + assert (Hstep : (length
                         (chat_history
                            (generator (snd (chat_turn system_prompt line (asked st)))))
                       <= length (chat_history (generator st)) + 2)%nat).
      { destruct Hh as [->|[reply ->]]; [lia|].
        rewrite length_app. simpl. lia. }
      simpl length. lia.
    + exists (request_sent line system_prompt (asked st) :: requests).
      split; [rewrite IHt, Ht, <- app_assoc; reflexivity|].
      split; [simpl; congruence|].
      constructor.
      * eexists. reflexivity.
      * rewrite Hm in IHf. exact IHf.
Qed.

(** X9. When the operator types [inputs], none the sentinel, and then
    the sentinel, the endpoint is called once per line of [inputs], each
    time for the model of the instance, and never for the sentinel; the
    history has grown by at most two entries per line. *)
Theorem interactive_chat_accounting (system_prompt : option str)
    (inputs rest : list str) (st : State) :
  ~ In (u "종료") inputs ->
  let st1 := snd (interactive_chat system_prompt (inputs ++ u "종료" :: rest) st) in
  (length (chat_history (generator st1))
   <= length (chat_history (generator st)) + 2 * length inputs)%nat
  /\ exists requests,
       trace (world st1) = trace (world st) ++ requests
       /\ length requests = length inputs
       /\ Forall (fun e => exists body, e = ModelInvoked (model_id (generator st)) body)
            requests.
Proof.
  intros Hnot st1. subst st1. unfold interactive_chat.
  destruct (chat_loop_run system_prompt inputs (greeted st) Hnot) as [Hstop _].
  fold (greeted st). rewrite (Hstop rest). simpl snd.
  destruct (after_turns_accounting system_prompt inputs (greeted st))
    as [_ [Hh Ht]].
  exact (conj Hh Ht).
Qed.


End LoopProperties.

Lemma history_stays_paired_witness :
  paired
    (chat_history
       (generator
          (snd (interactive_chat (P := answering (JStr (u "ok"))) None
                  [u "hi"; u "종료"] fresh_state)))).
Proof.
  refine (proj1 (history_stays_paired (P := answering (JStr (u "ok"))) None
                   [u "hi"; u "종료"] fresh_state _)).
  exists []. reflexivity.
Defined.

Lemma interactive_chat_accounting_witness :
  exists requests,
    trace
      (world
         (snd (interactive_chat (P := unreachable) None
                 ([[]; u "hi"] ++ u "종료" :: [u "unread"]) fresh_state)))
    = trace (world fresh_state) ++ requests
    /\ length requests = 2%nat.
Proof.
  assert (Hnot : ~ In (u "종료") [[]; u "hi"]).
  { intros [H|[H|[]]]; vm_compute in H; discriminate. }
  destruct (interactive_chat_accounting (P := unreachable) None [[]; u "hi"]
              [u "unread"] fresh_state Hnot) as [_ [requests [Ht [Hl _]]]].
  exists requests. split; [exact Ht | exact Hl].
Defined.


(** ** The entry point *)

Lemma interactive_chat_environ (P : Platform) (system_prompt : option str)
    (stdin : list str) (st : State) :
  environ (world (snd (interactive_chat system_prompt stdin st))) = environ (world st).
Proof.
  unfold interactive_chat.
  apply (chat_loop_invariant (fun s => environ (world s) = environ (world st))).
  - intros s0 s Hs. exact Hs.
  - intros s0 line Hs.
    destruct (chat_turn_effect system_prompt line s0) as [_ [He _]]. congruence.
  - reflexivity.
Qed.

(** X11. The entry point never fails on the credential check, whatever
    the environment it starts in. When boto3 refuses the client, that
    error ends the program before a line is read; otherwise the program
    ends normally if the sentinel is typed and with [EOFError] if the
    input ends without it. *)
Theorem main_outcome (P : Platform) (stdin : list str) (w : World) :
  (forall msg, fst (fst (main stdin w)) <> inl (EnvironmentError msg))
  /\ (forall descr,
         client_failure (u "bedrock-runtime") default_region_name = Some descr ->
         fst (main stdin w) = (inl (ExternalError descr), stdin))
  /\ (client_failure (u "bedrock-runtime") default_region_name = None ->
      (In (u "종료") stdin -> fst (fst (main stdin w)) = inr tt)
      /\ (~ In (u "종료") stdin -> fst (fst (main stdin w)) = inl EOFError)).
Proof.
  rewrite main_constructs. cbv zeta.
  destruct (client_failure (u "bedrock-runtime") default_region_name) as [descr|].
  - split; [intros msg; discriminate|].
    split; [intros d Hd; injection Hd as <-; reflexivity | discriminate].
  - set (sys := Some (u "너는 친절하고 도움이 되는 AI 어시스턴트야.")).
    set (st0 := {| generator := fresh_generator; world := _ |}).
    pose proof (chat_loop_outcome sys stdin (greeted st0)) as [Hin Hnot].
    change (chat_loop sys stdin (greeted st0)) with (interactive_chat sys stdin st0)
      in Hin, Hnot.
    destruct (interactive_chat sys stdin st0) as [[r rest] st1]; simpl in *.
    split.
    { intros msg Hr.
      destruct (List.in_dec (fun x y : str => decide (x = y)) (u "종료") stdin)
        as [Hi|Hn].
      - rewrite (Hin Hi) in Hr. discriminate.
      - rewrite (Hnot Hn) in Hr. discriminate. }
    split; [discriminate|]. intros _. split; assumption.
Qed.

(** X12. The entry point overwrites the credentials: when it ends, the
    two credential variables hold the empty string and the region
    variable [us-east-1], whatever they held before; the loop changes no
    variable. *)
Theorem main_overwrites_credentials (P : Platform) (stdin : list str) (w : World) :
  environ (snd (main stdin w))
  = <[u "AWS_DEFAULT_REGION" := u "us-east-1"]>
      (<[u "AWS_SECRET_ACCESS_KEY" := []]>
         (<[u "AWS_ACCESS_KEY_ID" := []]> (environ w)))
  /\ environ (snd (main stdin w)) !! u "AWS_ACCESS_KEY_ID" = Some []
  /\ environ (snd (main stdin w)) !! u "AWS_SECRET_ACCESS_KEY" = Some [].
Proof.
  assert (Henv : environ (snd (main stdin w))
                 = <[u "AWS_DEFAULT_REGION" := u "us-east-1"]>
                     (<[u "AWS_SECRET_ACCESS_KEY" := []]>
                        (<[u "AWS_ACCESS_KEY_ID" := []]> (environ w)))).
  { rewrite main_constructs. cbv zeta.
    destruct (client_failure (u "bedrock-runtime") default_region_name) as [descr|].
    - reflexivity.
    - set (sys := Some (u "너는 친절하고 도움이 되는 AI 어시스턴트야.")).
      set (st0 := {| generator := fresh_generator; world := _ |}).
      pose proof (interactive_chat_environ P sys stdin st0) as He.
      destruct (interactive_chat sys stdin st0) as [[r rest] st1]; simpl in *.
      exact He. }
  rewrite Henv. split; [reflexivity|]. split.
  - rewrite lookup_insert_ne by (intros H; vm_compute in H; discriminate).
    rewrite lookup_insert_ne by (intros H; vm_compute in H; discriminate).
    apply lookup_insert_eq.
  - rewrite lookup_insert_ne by (intros H; vm_compute in H; discriminate).
    apply lookup_insert_eq.
Qed.

(** ** The request body on the wire *)

Lemma hex_digit_printable (d : N) : d < 16 -> printable (hex_digit d) = true.
Proof.
  intros Hd. unfold printable, hex_digit.
  destruct (d <? 10) eqn:H10.
  - apply N.ltb_lt in H10. apply andb_true_intro. split; apply N.leb_le; lia.
  - apply N.ltb_ge in H10. apply andb_true_intro. split; apply N.leb_le; lia.
Qed.

Lemma u_escape_printable (c : N) : forallb printable (u_escape c) = true.
Proof.
  unfold u_escape. cbn [forallb].
  rewrite !hex_digit_printable by (apply N.mod_upper_bound; discriminate).
  reflexivity.
Qed.

Lemma escape_char_printable (c : N) : forallb printable (escape_char c) = true.
Proof.
  unfold escape_char.
  repeat match goal with
    | |- context [if ?b then _ else _] => destruct b eqn:?; [try reflexivity|]
    end.
  - cbn [forallb]. unfold printable. now rewrite Heqb6.
  - apply u_escape_printable.
  - rewrite forallb_app, !u_escape_printable. reflexivity.
Qed.

Lemma dumps_str_printable (s : str) : forallb printable (dumps_str s) = true.
Proof.
  unfold dumps_str. rewrite !forallb_app.
  assert (H : forallb printable (flat_map escape_char s) = true).
  { induction s as [|c s IH]; simpl; [reflexivity|].
    now rewrite forallb_app, escape_char_printable, IH. }
  rewrite H. reflexivity.
Qed.

(** The serialized payload: fixed text around the escaped prompt and the
    text of the temperature. *)
Lemma request_body_text (P : Platform) (full_prompt : str) (t : float) :
  json_dumps (request_body full_prompt t)
  = json_text "{'messages': [{'role': 'user', 'content': "
    ++ dumps_str full_prompt
    ++ json_text "}], 'temperature': "
    ++ float_repr t ++ u "}".
Proof.
  unfold request_body. cbn [json_dumps map join].
  rewrite <- !app_assoc. reflexivity.
Qed.

Lemma printable_no_newline (s : str) :
  forallb printable s = true -> contains s nl = false.
Proof.
  induction s as [|c s IH]; [reflexivity|].
  intros H. apply andb_prop in H as [Hc Hs].
  unfold printable in Hc. apply andb_prop in Hc as [Hlo _]. apply N.leb_le in Hlo.
  assert (H10 : (10 =? c) = false) by (apply N.eqb_neq; lia).
  change (contains (c :: s) nl) with (((10 =? c) && true) || contains s nl).
  now rewrite H10, (IH Hs).
Qed.

(** X13. The body sent to the endpoint is printable ASCII whenever the
    text of the temperature is: every character of the composed prompt
    outside that range (the Korean label, a newline, a control
    character) goes out as an escape. *)
Theorem request_body_is_ascii (P : Platform) (prompt : str)
    (system_prompt : option str) (st : State) :
  forallb printable (float_repr (temperature (generator st))) = true ->
  exists body,
    request_sent prompt system_prompt st = ModelInvoked (model_id (generator st)) body
    /\ forallb printable body = true
    /\ contains body nl = false.
Proof.
  intros Hf. unfold request_sent. eexists. split; [reflexivity|].
  assert (Hp : forallb printable
                 (json_dumps
                    (request_body
                       (compose_prompt system_prompt (chat_history (generator st)) prompt)
                       (temperature (generator st)))) = true).
  { rewrite request_body_text, !forallb_app, dumps_str_printable, Hf. reflexivity. }
  split; [exact Hp | apply printable_no_newline, Hp].
Qed.

Lemma request_body_is_ascii_witness :
  exists body,
    request_sent (P := unreachable) (u "안녕") None fresh_state
    = ModelInvoked default_model_id body
    /\ forallb printable body = true.
Proof.
  destruct (request_body_is_ascii unreachable (u "안녕") None fresh_state eq_refl)
    as [body [Hsent [Hascii _]]].
  exists body. split; [exact Hsent | exact Hascii].
Defined.

(** ** Whole sessions *)

Section Sessions.

Context `{P : Platform}.

Lemma request_reply_refused (body : json) (st : State) (descr : str) :
  invoke_model (trace (world st)) (bedrock_runtime (generator st))
    (model_id (generator st)) (json_dumps body) = inl descr ->
  fst (request_reply body st) = inl (ExternalError descr).
Proof.
  intros Hinv.
  unfold request_reply, bind, get_self, call_invoke_model, lift. simpl.
  now rewrite Hinv.
Qed.

(** When the endpoint gives a string content, that string is the reply. *)
Lemma request_reply_content (prompt : str) (system_prompt : option str) (st : State)
    (text : str) :
  endpoint_content st prompt system_prompt = Some (JStr text) ->
  fst (request_reply
         (request_body
            (compose_prompt system_prompt (chat_history (generator st)) prompt)
            (temperature (generator st))) st) = inr (JStr text).
Proof.
  unfold endpoint_content. intros H.
  destruct (invoke_model _ _ _ _) as [descr|[[descr|raw]]] eqn:Hinv; try discriminate.
  destruct (json_loads raw) as [descr|response_body] eqn:Hload; try discriminate.
  rewrite (request_reply_parsed P _ st raw response_body Hinv Hload).
  destruct response_body as [| | | | | |top]; try discriminate.
  simpl.
  destruct (dict_get top (u "choices")) as [[| | | | |[|[| | | | | |choice] others]|]|];
    try discriminate.
  simpl.
  destruct (dict_get choice (u "message")) as [[| | | | | |message]|];
    try discriminate.
  simpl. now rewrite H.
Qed.

Lemma always_answers_content (system_prompt : option str) (prompt : str) (st : State) :
  always_answers P ->
  exists text, endpoint_content st prompt system_prompt = Some (JStr text).
Proof.
  intros Hok. unfold endpoint_content.
  destruct (Hok (trace (world st)) (bedrock_runtime (generator st))
              (model_id (generator st))
              (json_dumps
                 (request_body
                    (compose_prompt system_prompt (chat_history (generator st)) prompt)
                    (temperature (generator st)))))
    as [raw [top [choice [others [message [text [Hinv [Hload [H1 [H2 H3]]]]]]]]]].
  exists text. now rewrite Hinv, Hload, H1, H2.
Qed.

Lemma after_turns_answered (system_prompt : option str) (inputs : list str)
    (st : State) :
  always_answers P ->
  exists replies,
    length replies = length inputs
    /\ chat_history (generator (after_turns system_prompt inputs st))
       = chat_history (generator st)
         ++ flat_map (fun t => turn_entries (fst t) (snd t)) (combine inputs replies)
    /\ (forall i line reply,
           inputs !! i = Some line ->
           replies !! i = Some reply ->
           endpoint_content (after_turns system_prompt (take i inputs) st) line
             system_prompt
           = Some (JStr reply)).
Proof.
  intros Hok. revert st. induction inputs as [|line inputs IH]; intros st.
  - exists []. split; [reflexivity|]. split; [simpl; now rewrite app_nil_r|].
    intros i l r Hl. destruct i; discriminate.
  - change (after_turns system_prompt (line :: inputs) st)
      with (after_turns system_prompt inputs
              (snd (chat_turn system_prompt line (asked st)))).
    destruct (IH (snd (chat_turn system_prompt line (asked st))))
      as [replies [Hl [Hh Htie]]].
    destruct (always_answers_content system_prompt line (asked st) Hok)
      as [text Hcontent].
    pose proof (request_reply_content line system_prompt (asked st) text Hcontent)
      as Hreply.
    exists (text :: replies). split; [simpl; congruence|]. split.
    + rewrite Hh.
      destruct (chat_turn_eq system_prompt line (asked st)) as [r [_ ->]].
      rewrite generate_text_cases. cbv zeta. rewrite Hreply.
      simpl. rewrite <- app_assoc. reflexivity.
    + intros [|i] l r Hi Hr; simpl in Hi, Hr.
      * injection Hi as <-. injection Hr as <-. exact Hcontent.
      * exact (Htie i l r Hi Hr).
Qed.

(** X14. With an endpoint that always answers with a string content, a
    session in which the operator types [inputs] and then the sentinel
    leaves the history extended by one Human/Assistant pair per line, in
    the order typed: the Human entry is the line, and the Assistant entry
    is the content the endpoint gave to the request made for that line,
    at that point of the session. *)
Theorem answered_session_history (system_prompt : option str) (inputs rest : list str)
    (st : State) :
  always_answers P ->
  ~ In (u "종료") inputs ->
  exists replies,
    length replies = length inputs
    /\ chat_history
         (generator
            (snd (interactive_chat system_prompt (inputs ++ u "종료" :: rest) st)))
       = chat_history (generator st)
         ++ flat_map (fun t => turn_entries (fst t) (snd t)) (combine inputs replies)
    /\ (forall i line reply,
           inputs !! i = Some line ->
           replies !! i = Some reply ->
           endpoint_content (after_turns system_prompt (take i inputs) (greeted st))
             line system_prompt
           = Some (JStr reply)).
Proof.
  intros Hok Hnot. unfold interactive_chat. fold (greeted st).
  destruct (chat_loop_run system_prompt inputs (greeted st) Hnot) as [Hstop _].
  rewrite (Hstop rest). simpl snd.
  exact (after_turns_answered system_prompt inputs (greeted st) Hok).
Qed.

(** X15. With an endpoint that cannot be reached, a whole session,
    whatever is typed and however it ends, leaves the instance as it was:
    nothing is ever stored in the history. *)
Theorem refused_session_keeps_history (system_prompt : option str) (stdin : list str)
    (st : State) :
  never_answers P ->
  generator (snd (interactive_chat system_prompt stdin st)) = generator st.
Proof.
  intros Hno. unfold interactive_chat.
  apply (chat_loop_invariant (fun s => generator s = generator st)).
  - intros s0 s Hs. exact Hs.
  - intros s0 line Hs.
    destruct (chat_turn_eq system_prompt line s0) as [r [_ ->]].
    rewrite generate_text_cases. cbv zeta.
    set (body := request_body _ _).
    destruct (Hno (trace (world s0)) (bedrock_runtime (generator s0))
                (model_id (generator s0)) (json_dumps body)) as [descr Hinv].
    rewrite (request_reply_refused body s0 descr Hinv). exact Hs.
  - reflexivity.
Qed.

End Sessions.

Lemma answering_always_answers (text : str) : always_answers (answering (JStr text)).
Proof.
  intros calls client modelId body.
  exists [], [(u "choices", JArr [JObj [(u "message", JObj [(u "content", JStr text)])]])],
    [(u "message", JObj [(u "content", JStr text)])], [],
    [(u "content", JStr text)], text.
  repeat split; reflexivity.
Qed.

(** A response with further keys and choices is answered as well. *)
Lemma verbose_always_answers :
  always_answers
    (responding
       (JObj [(u "id", JStr (u "r1"));
              (u "choices",
               JArr [JObj [(u "index", JInt 0);
                           (u "message",
                            JObj [(u "role", JStr (u "assistant"));
                                  (u "content", JStr (u "ok"))])];
                     JObj []])])).
Proof.
  intros calls client modelId body.
  do 5 eexists. exists (u "ok"). repeat split; reflexivity.
Qed.

Lemma unreachable_never_answers : never_answers unreachable.
Proof. intros calls client modelId body. eexists. reflexivity. Qed.

Lemma answered_session_history_witness :
  chat_history
    (generator
       (snd (interactive_chat (P := answering (JStr (u "ok"))) None
               ([[]; u "hi"] ++ u "종료" :: []) fresh_state)))
  = [u "Human: "; u "Assistant: ok"; u "Human: hi"; u "Assistant: ok"].
Proof.
  assert (Hnot : ~ In (u "종료") [[]; u "hi"]).
  { intros [H|[H|[]]]; vm_compute in H; discriminate. }
  destruct (answered_session_history (P := answering (JStr (u "ok"))) None [[]; u "hi"] []
              fresh_state (answering_always_answers (u "ok")) Hnot)
    as [replies [Hlen [Hhist Htie]]].
  destruct replies as [|r0 [|r1 [|r2 replies]]]; try discriminate.
  pose proof (Htie 0%nat [] r0 eq_refl eq_refl) as H0.
  pose proof (Htie 1%nat (u "hi") r1 eq_refl eq_refl) as H1.
  vm_compute in H0. vm_compute in H1.
  injection H0 as <-. injection H1 as <-.
  exact Hhist.
Defined.

Lemma refused_session_keeps_history_witness :
  generator (snd (interactive_chat (P := unreachable) None [u "hi"; u "종료"] fresh_state))
  = fresh_generator.
Proof.
  exact (refused_session_keeps_history (P := unreachable) None [u "hi"; u "종료"]
           fresh_state unreachable_never_answers).
Defined.
